(** * A shallow embedding of [functions/api/chat.js] (onRequestPost)

    The handler forwards a chat prompt to Groq, falls back to DeepSeek,
    and reports both failures when neither answers.  Its runtime
    collaborators ([JSON.parse], [fetch]) are inputs of the model:
    [JSON.parse] is a Section variable, the network is a function from
    the outbound call to what [fetch] yields for it. *)

From Stdlib Require Import String List ZArith Bool Lia.
Import ListNotations.
Open Scope string_scope.
Set Warnings "-register-all".

(** ** JavaScript values

    The values the handler touches: JSON values plus [undefined].

    A JS string, a sequence of UTF-16 code units, is spelled as a Rocq
    string in WTF-8: a surrogate pair as the 4-byte UTF-8 form of its code
    point, every other code unit (a lone surrogate included) as the 1- to
    3-byte UTF-8 form of its value.  Each JS string has exactly one spelling,
    so equality and emptiness act on spellings as on code units; every
    concatenation of the handler has a non-surrogate literal at its seam, so
    it is the concatenation of spellings.  Counting and cutting by code
    unit is [js_length] and [js_slice] below.

    A JS number is represented by its canonical string form
    [Number::toString(x)] ("1", "1.5", "1e+21", ...), which tells all
    numbers apart except +0 and -0 (both "0"); the handler only takes their
    truthiness and their string form, which agree on those two. *)

Inductive jvalue : Type :=
| JUndef
| JNull
| JBool (b : bool)
| JNum (repr : string)
| JStr (s : string)
| JArr (xs : list jvalue)
| JObj (kvs : list (string * jvalue)).

(** JS truthiness, the test behind [||] and [if (x)]. *)
Definition truthy (v : jvalue) : bool :=
  match v with
  | JUndef | JNull => false
  | JBool b => b
  | JNum r => negb (String.eqb r "0") && negb (String.eqb r "NaN")
  | JStr s => negb (String.eqb s "")
  | JArr _ | JObj _ => true
  end.

(** [a || b] *)
Definition js_or (a b : jvalue) : jvalue := if truthy a then a else b.

(** Own property of an object; JSON.parse keeps the last of duplicate keys. *)
Fixpoint lookup (k : string) (kvs : list (string * jvalue)) : option jvalue :=
  match kvs with
  | [] => None
  | (k', v) :: t =>
      match lookup k t with
      | Some w => Some w
      | None => if String.eqb k k' then Some v else None
      end
  end.

(** ** Code units of a WTF-8 spelling *)

(** Bytes taken by the sequence a lead byte starts (a stray continuation
    byte, absent from spellings, counts as one). *)
Definition seq_width (c : Ascii.ascii) : nat :=
  let b := Ascii.nat_of_ascii c in
  if Nat.ltb b 192 then 1 else if Nat.ltb b 224 then 2 else if Nat.ltb b 240 then 3 else 4.

(** UTF-16 code units of that sequence: a 4-byte sequence is a surrogate pair. *)
Definition seq_units (c : Ascii.ascii) : nat := if Nat.eqb (seq_width c) 4 then 2 else 1.

Definition byte_at (i : nat) (s : string) : N :=
  match String.get i s with Some c => N.of_nat (Ascii.nat_of_ascii c) | None => 0%N end.

(** The spelling of the high surrogate of the 4-byte sequence [c] :: [r]:
    0xD800 plus the top ten bits of [cp - 0x10000], whose UTF-8 lead byte is
    0xED for every high surrogate. *)
Definition high_surrogate (c : Ascii.ascii) (r : string) : string :=
  let cp := N.lor (N.shiftl (N.land (N.of_nat (Ascii.nat_of_ascii c)) 7) 18)
           (N.lor (N.shiftl (N.land (byte_at 0 r) 63) 12)
           (N.lor (N.shiftl (N.land (byte_at 1 r) 63) 6) (N.land (byte_at 2 r) 63))) in
  let hi := (55296 + N.land (N.shiftr (cp - 65536) 10) 1023)%N in
  String (Ascii.ascii_of_N 237)
    (String (Ascii.ascii_of_N (N.lor 128 (N.land (N.shiftr hi 6) 63)))
      (String (Ascii.ascii_of_N (N.lor 128 (N.land hi 63))) EmptyString)).

(** The first [n] code units; [copy] bytes of an already kept sequence are
    still to be copied.  When one unit is left at a surrogate pair, the
    high surrogate alone is kept, as [String.prototype.slice] does. *)
Fixpoint slice_go (n copy : nat) (s : string) : string :=
  match s with
  | EmptyString => EmptyString
  | String c r =>
      match copy with
      | S k => String c (slice_go n k r)
      | O =>
          match n with
          | O => EmptyString
          | S n' =>
              if Nat.eqb (seq_width c) 4 then
                match n' with
                | O => high_surrogate c r
                | S n'' => String c (slice_go n'' 3 r)
                end
              else String c (slice_go n' (seq_width c - 1) r)
          end
      end
  end.

(** [s.slice(0, n)] *)
Definition js_slice (n : nat) (s : string) : string := slice_go n 0 s.

Fixpoint len_go (copy : nat) (s : string) : nat :=
  match s with
  | EmptyString => 0
  | String c r =>
      match copy with
      | S k => len_go k r
      | O => seq_units c + len_go (seq_width c - 1) r
      end
  end.

(** [s.length] *)
Definition js_length (s : string) : nat := len_go 0 s.

(** [v?.k] for the property names the handler uses ([messages], [targetLang],
    [style], [error], [message], [choices], [text], [content]): none of them is
    an inherited property of objects, arrays, strings, numbers or booleans. *)
Definition prop (v : jvalue) (k : string) : jvalue :=
  match v with
  | JObj kvs => match lookup k kvs with Some w => w | None => JUndef end
  | _ => JUndef
  end.

(** [v?.[0]] *)
Definition at0 (v : jvalue) : jvalue :=
  match v with
  | JArr (x :: _) => x
  | JObj kvs => match lookup "0" kvs with Some w => w | None => JUndef end
  | JStr (String _ _ as s) => JStr (js_slice 1 s)
  | _ => JUndef
  end.

(** ** Thrown values: an [Error]-like object with [name] and [message]. *)

Record err : Type := mk_err { ename : string; emsg : string }.

Definition new_Error (msg : string) : err := mk_err "Error" msg.

Definition type_error_to_primitive : err :=
  mk_err "TypeError" "Cannot convert object to primitive value".

(** [String(e.message || e)]: a non-empty message, otherwise
    [Error.prototype.toString], which is the name when the message is empty. *)
Definition err_string (e : err) : string :=
  if String.eqb (emsg e) "" then ename e else emsg e.

(** ** Decimal rendering of integers (the response status in a template literal) *)

Definition digit (d : Z) : string :=
  String (Ascii.ascii_of_nat (48 + Z.to_nat d)) EmptyString.

Fixpoint dec_pos (fuel : nat) (n : Z) (acc : string) : string :=
  match fuel with
  | O => acc
  | S f =>
      let acc' := digit (Z.modulo n 10) ++ acc in
      if Z.ltb n 10 then acc' else dec_pos f (Z.div n 10) acc'
  end.

Definition z_dec (z : Z) : string :=
  if Z.ltb z 0 then "-" ++ dec_pos (S (Z.to_nat (Z.log2 (- z)))) (- z) ""
  else dec_pos (S (Z.to_nat (Z.log2 z))) z "".

(** ** [ToString] of a JSON value.  An object whose own property [toString]
    comes from the JSON text is not callable, [valueOf] returns the object
    itself, so [ToString] throws a TypeError there. *)

(** [Array.prototype.join(",")] over the converted elements, left to right;
    the first conversion that throws aborts the join. *)
Fixpoint join_results (first : bool) (rs : list (err + string)) : err + string :=
  match rs with
  | [] => inr ""
  | inl e :: _ => inl e
  | inr a :: t =>
      match join_results false t with
      | inl e => inl e
      | inr b => inr ((if first then "" else ",") ++ a ++ b)
      end
  end.

Fixpoint js_to_string (v : jvalue) : err + string :=
  match v with
  | JUndef => inr "undefined"
  | JNull => inr "null"
  | JBool true => inr "true"
  | JBool false => inr "false"
  | JNum r => inr r
  | JStr s => inr s
  | JArr xs =>
      (* null and undefined elements become "" *)
      join_results true (map (fun x => match x with
                                        | JUndef | JNull => inr ""
                                        | _ => js_to_string x
                                        end) xs)
  | JObj kvs =>
      match lookup "toString" kvs with
      | Some _ => inl type_error_to_primitive
      | None => inr "[object Object]"
      end
  end.

(** Induction on values, with the hypothesis on every array element. *)
Definition jvalue_ind_deep (P : jvalue -> Prop)
    (HU : P JUndef) (HN : P JNull) (HB : forall b, P (JBool b)) (HZ : forall r, P (JNum r))
    (HS : forall s, P (JStr s)) (HA : forall xs, Forall P xs -> P (JArr xs))
    (HO : forall kvs, P (JObj kvs)) : forall v, P v :=
  fix F (v : jvalue) : P v :=
    match v with
    | JUndef => HU
    | JNull => HN
    | JBool b => HB b
    | JNum r => HZ r
    | JStr s => HS s
    | JArr xs =>
        HA xs ((fix G (l : list jvalue) : Forall P l :=
                  match l with
                  | [] => Forall_nil P
                  | x :: t => Forall_cons x (F x) (G t)
                  end) xs)
    | JObj kvs => HO kvs
    end.

(** ** Requests, responses and the network *)

(** [res.ok]: a status in the range 200-299. *)
Definition res_ok (status : Z) : bool := (200 <=? status)%Z && (status <=? 299)%Z.

(** Environment variables: a string or [undefined]. *)
Record env : Type := mk_env {
  GROQ_API_KEY : option string;
  DEEPSEEK_API_KEY : option string;
  GROQ_MODEL : option string;
  DEEPSEEK_MODEL : option string }.

Definition env_truthy (o : option string) : bool :=
  match o with Some s => negb (String.eqb s "") | None => false end.

(** [`${x}`] of an environment value. *)
Definition env_string (o : option string) : string :=
  match o with Some s => s | None => "undefined" end.

(** [env.X || dflt] *)
Definition env_or (o : option string) (dflt : string) : string :=
  match o with Some s => if String.eqb s "" then dflt else s | None => dflt end.

(** One [fetchWithTimeout(url, {method: "POST", headers, body}, ms)]: the
    URL, the Authorization header, and the model and messages of the JSON
    body (its constant [temperature: 0.4] is left out). *)
Record call : Type := mk_call {
  c_url : string;
  c_auth : string;
  c_model : string;
  c_messages : list jvalue;
  c_timeout : Z }.

(** What [fetchWithTimeout] yields: a rejection (network error, or the abort
    raised when the timer fires), or a response whose [res.text()] resolves
    to the raw body or rejects. *)
Inductive fetch_outcome : Type :=
| FetchThrow (e : err)
| FetchResp (status : Z) (body : err + string).

Inductive resp_body : Type :=
| BodyText (s : string)
| BodyJson (v : jvalue).

Record response : Type := mk_response { r_status : Z; r_body : resp_body }.

(** The handler returns a response, or its promise rejects. *)
Inductive outcome : Type :=
| Return (r : response)
| Uncaught (e : err).

(** [body.messages] on [null]. *)
Definition type_error_null : err :=
  mk_err "TypeError" "Cannot read properties of null (reading 'messages')".

Definition GROQ_URL : string := "https://api.groq.com/openai/v1/chat/completions".
Definition DEEPSEEK_URL : string := "https://api.deepseek.com/chat/completions".

(** ** Prompt composition (lines 23-48) *)

Definition KK_RULE : string := "Reply ONLY in Kazakh. Never use English.".
Definition RU_RULE : string := "Reply ONLY in Russian. Never use English.".
Definition ZH_RULE : string := "Reply ONLY in Simplified Chinese. Never use English.".

(** [x === "lit"] *)
Definition js_str_eq (v : jvalue) (lit : string) : bool :=
  match v with JStr s => String.eqb s lit | _ => false end.

Definition messages_of (body : jvalue) : list jvalue :=
  match prop body "messages" with JArr xs => xs | _ => [] end.

Definition target_lang (body : jvalue) : jvalue := js_or (prop body "targetLang") (JStr "kk").

Definition style_of (body : jvalue) : jvalue := js_or (prop body "style") (JStr "normal").

Definition lang_rule (targetLang : jvalue) : string :=
  if js_str_eq targetLang "kk" then KK_RULE
  else if js_str_eq targetLang "ru" then RU_RULE
  else ZH_RULE.

Definition style_rule (style : jvalue) : string :=
  if js_str_eq style "concise" then "Be concise."
  else if js_str_eq style "polite" then "Be polite."
  else "Be natural and helpful.".

(** [[...].join(" ")] *)
Definition system_prompt (langRule styleRule : string) : string :=
  "You are a travel translation and phrase assistant for Kazakhstan." ++ " " ++
  langRule ++ " " ++ styleRule ++ " " ++
  "When helpful, output short, ready-to-say phrases.".

Definition system_message (content : string) : jvalue :=
  JObj [("role", JStr "system"); ("content", JStr content)].

(** [finalMessages]; [None] when [body.messages] throws ([body] is null). *)
Definition final_messages (body : jvalue) : option (list jvalue) :=
  match body with
  | JNull | JUndef => None
  | _ => Some (system_message (system_prompt (lang_rule (target_lang body))
                                             (style_rule (style_of body)))
               :: messages_of body)
  end.

Section Handler.

(** [JSON.parse] (and [request.json()]): [None] when the text is not JSON. *)
Variable json_parse : string -> option jvalue.

(** [parseOpenAICompat(res)] (lines 63-78): the extracted text or the
    thrown error. *)
Definition parse_open_ai_compat (status : Z) (body : err + string) : err + jvalue :=
  match body with
  | inl e => inl e
  | inr raw =>
      let data := match json_parse raw with
                  | Some d => d
                  | None => JObj [("error", JStr (js_slice 300 raw))]
                  end in
      if negb (res_ok status) then
        match js_to_string
                (js_or (prop (prop data "error") "message")
                       (js_or (prop data "error") (JStr ("HTTP " ++ z_dec status)))) with
        | inl e => inl e
        | inr m => inl (new_Error m)
        end
      else
        let text := js_or (prop (prop (at0 (prop data "choices")) "message") "content")
                    (js_or (prop (at0 (prop data "choices")) "text")
                    (js_or (prop data "text") (JStr ""))) in
        if truthy text then inr text else inl (new_Error "Empty response text")
  end.

Variable net : call -> fetch_outcome.

Definition groq_call (E : env) (fm : list jvalue) : call :=
  mk_call GROQ_URL ("Bearer " ++ env_string (GROQ_API_KEY E))
          (env_or (GROQ_MODEL E) "llama-3.3-70b-versatile") fm 6500.

Definition deepseek_call (E : env) (fm : list jvalue) : call :=
  mk_call DEEPSEEK_URL ("Bearer " ++ env_string (DEEPSEEK_API_KEY E))
          (env_or (DEEPSEEK_MODEL E) "deepseek-chat") fm 8500.

(** One provider leg: the call issued, then [parseOpenAICompat]. *)
Definition provider_leg (c : call) : list call * (err + jvalue) :=
  match net c with
  | FetchThrow e => ([c], inl e)
  | FetchResp st b => ([c], parse_open_ai_compat st b)
  end.

(** The [try] block of lines 83-106. *)
Definition groq_attempt (E : env) (fm : list jvalue) : list call * (err + jvalue) :=
  if env_truthy (GROQ_API_KEY E) then provider_leg (groq_call E fm)
  else ([], inl (new_Error "GROQ not configured")).

(** The inner [try] block of lines 108-128. *)
Definition deepseek_attempt (E : env) (fm : list jvalue) : list call * (err + jvalue) :=
  provider_leg (deepseek_call E fm).

Definition ok_json (v : jvalue) : outcome := Return (mk_response 200 (BodyJson v)).

Definition total_failure_message (e1 e2 : err) : string :=
  "GROQ失败：" ++ err_string e1 ++ "；DEEPSEEK失败：" ++ err_string e2.

(** Lines 83-135: the calls issued, in order, and the outcome. *)
Definition orchestrate (E : env) (fm : list jvalue) : list call * outcome :=
  let (t1, r1) := groq_attempt E fm in
  match r1 with
  | inr text => (t1, ok_json (JObj [("text", text); ("engine", JStr "GROQ")]))
  | inl e1 =>
      let (t2, r2) := deepseek_attempt E fm in
      match r2 with
      | inr text => ((t1 ++ t2)%list, ok_json (JObj [("text", text); ("engine", JStr "DEEPSEEK")]))
      | inl e2 =>
          ((t1 ++ t2)%list, Return (mk_response 500
             (BodyJson (JObj [("error", JStr (total_failure_message e1 e2))]))))
      end
  end.

(** [onRequestPost]: request method, raw request body, environment. *)
Definition on_request_post (method raw : string) (E : env) : list call * outcome :=
  if String.eqb method "OPTIONS" then ([], Return (mk_response 200 (BodyText "")))
  else
    match json_parse raw with
    | None => ([], Return (mk_response 400 (BodyJson (JObj [("error", JStr "Invalid JSON")]))))
    | Some body =>
        match final_messages body with
        | None => ([], Uncaught type_error_null)
        | Some fm => orchestrate E fm
        end
    end.

End Handler.

(** A [JSON.parse] given by a table of JSON texts and their values; every
    other text is treated as not JSON (sound for the texts used below). *)
Definition table_parse (tbl : list (string * jvalue)) (s : string) : option jvalue :=
  match find (fun p => String.eqb (fst p) s) tbl with
  | Some (_, v) => Some v
  | None => None
  end.

(** ** Spot checks of the embedding *)

Example z_dec_404 : z_dec 404 = "404". Proof. reflexivity. Qed.
Example z_dec_0 : z_dec 0 = "0". Proof. reflexivity. Qed.
Example to_string_array :
  js_to_string (JArr [JNum "1.5"; JNull; JStr "a"; JArr [JBool true; JNum "1e+21"]]) =
  inr "1.5,,a,true,1e+21".
Proof. reflexivity. Qed.

Example normalizer_http_error :
  parse_open_ai_compat (table_parse [("{}", JObj [])]) 503 (inr "{}")
  = inl (new_Error "HTTP 503").
Proof. reflexivity. Qed.

(** [s] repeated [n] times. *)
Fixpoint rep (n : nat) (s : string) : string :=
  match n with O => "" | S k => s ++ rep k s end.

(** Two hundred Cyrillic letters are 200 code units (400 bytes): the
    300-unit cut keeps them all, a 3-unit cut keeps three letters. *)
Example slice_cyrillic :
  js_length (rep 200 "ә") = 200 /\ js_slice 300 (rep 200 "ә") = rep 200 "ә" /\
  js_slice 3 (rep 200 "ә") = rep 3 "ә".
Proof. vm_compute. repeat split. Qed.

(** U+1F600 is a surrogate pair (two units); a one-unit cut keeps its high
    surrogate U+D83D, spelled ED A0 BD. *)
Example slice_surrogate_pair :
  js_length "😀" = 2 /\
  js_slice 1 "😀" = String (Ascii.ascii_of_nat 237)
                     (String (Ascii.ascii_of_nat 160) (String (Ascii.ascii_of_nat 189) "")) /\
  js_slice 2 ("😀" ++ "a") = "😀".
Proof. vm_compute. repeat split. Qed.

(** ** Facts about strings *)

(** [t] occurs inside [s]. *)
Definition contains (s t : string) : Prop := exists a b, s = a ++ t ++ b.

Fixpoint substrb (t s : string) : bool :=
  match s with
  | EmptyString => String.prefix t s
  | String _ s' => String.prefix t s || substrb t s'
  end.

Lemma prefix_app (t b : string) : String.prefix t (t ++ b) = true.
Proof.
  induction t as [|c t IH]; simpl.
  - destruct b; reflexivity.
  - destruct (Ascii.ascii_dec c c) as [_|n]; [exact IH | contradiction].
Qed.

Lemma contains_substrb (s t : string) : contains s t -> substrb t s = true.
Proof.
  intros [a [b ->]]. induction a as [|c a IH]; cbn [append].
  - pose proof (prefix_app t b) as Hp. destruct (t ++ b); [exact Hp | cbn [substrb]; rewrite Hp; reflexivity].
  - cbn [substrb]. rewrite IH, orb_true_r. reflexivity.
Qed.

Lemma str_app_assoc (a b c : string) : (a ++ b) ++ c = a ++ b ++ c.
Proof. induction a as [|x a IH]; simpl; [reflexivity | now rewrite IH]. Qed.

Lemma str_app_nil (a : string) : a ++ "" = a.
Proof. induction a as [|x a IH]; simpl; [reflexivity | now rewrite IH]. Qed.

Lemma contains_empty (s : string) : contains s "".
Proof. exists "", s. reflexivity. Qed.

Lemma contains_err_string (s : string) (e : err) :
  contains s (err_string e) -> contains s (emsg e).
Proof.
  unfold err_string. destruct (String.eqb_spec (emsg e) "") as [->|_]; auto.
  intros _. apply contains_empty.
Qed.

(** ** The normalizer as the spec words it *)

(** The first candidate that is present and non-empty.  A JS value is
    "non-empty" when it is truthy; for strings this is exactly [s <> ""]. *)
Fixpoint first_truthy (cands : list jvalue) : option jvalue :=
  match cands with
  | [] => None
  | v :: t => if truthy v then Some v else first_truthy t
  end.

(** [choices[0].message.content], [choices[0].text] and the top-level [text]. *)
Definition choice_content (data : jvalue) : jvalue :=
  prop (prop (at0 (prop data "choices")) "message") "content".
Definition choice_text (data : jvalue) : jvalue := prop (at0 (prop data "choices")) "text".
Definition top_text (data : jvalue) : jvalue := prop data "text".

(** Extraction in the spec's order, failing with "empty response". *)
Definition extract_spec (data : jvalue) : err + jvalue :=
  match first_truthy [choice_content data; choice_text data; top_text data] with
  | Some v => inr v
  | None => inl (new_Error "Empty response text")
  end.

(** The body after parsing, or the synthetic error object. *)
Definition data_of (json_parse : string -> option jvalue) (raw : string) : jvalue :=
  match json_parse raw with
  | Some d => d
  | None => JObj [("error", JStr (js_slice 300 raw))]
  end.

(** The value the message of a non-success failure is built from:
    [error.message], else [error], else ["HTTP {status}"]. *)
Definition error_source (data : jvalue) (status : Z) : jvalue :=
  match first_truthy [prop (prop data "error") "message"; prop data "error"] with
  | Some v => v
  | None => JStr ("HTTP " ++ z_dec status)
  end.

(** [ToString] fails only with the TypeError of an object with its own
    [toString]. *)
Lemma join_results_err (first : bool) (rs : list (err + string)) (e : err) :
  join_results first rs = inl e -> In (inl e) rs.
Proof.
  revert first. induction rs as [|[e'|a] t IH]; intros first H; simpl in H.
  - discriminate.
  - injection H as <-. left. reflexivity.
  - right. destruct (join_results false t) eqn:Ht; [|discriminate].
    injection H as <-. exact (IH false Ht).
Qed.

Lemma js_to_string_err : forall v e, js_to_string v = inl e -> e = type_error_to_primitive.
Proof.
  induction v as [| | b | z | s | xs IH | kvs] using jvalue_ind_deep; intros e H; simpl in H;
    try discriminate.
  - destruct b; discriminate.
  - apply join_results_err, in_map_iff in H. destruct H as [x [Hx Hin]].
    rewrite Forall_forall in IH.
    destruct x; try discriminate; exact (IH _ Hin e Hx).
  - destruct (lookup "toString" kvs); [now injection H | discriminate].
Qed.

(** The list [finalMessages]: the synthesized system message, then the
    caller's messages. *)
Lemma final_messages_shape (body : jvalue) (fm : list jvalue) :
  final_messages body = Some fm ->
  fm = system_message (system_prompt (lang_rule (target_lang body)) (style_rule (style_of body)))
       :: messages_of body.
Proof. unfold final_messages. destruct body; try discriminate; now intros [= <-]. Qed.

(** ** Facts about the handler *)

Section HandlerFacts.

Variable json_parse : string -> option jvalue.
Variable net : call -> fetch_outcome.

Lemma provider_leg_calls (c : call) : fst (provider_leg json_parse net c) = [c].
Proof. unfold provider_leg. destruct (net c); reflexivity. Qed.

Lemma groq_attempt_calls (E : env) (fm : list jvalue) :
  fst (groq_attempt json_parse net E fm) =
  if env_truthy (GROQ_API_KEY E) then [groq_call E fm] else [].
Proof.
  unfold groq_attempt. destruct (env_truthy _); [apply provider_leg_calls | reflexivity].
Qed.

Lemma deepseek_attempt_calls (E : env) (fm : list jvalue) :
  fst (deepseek_attempt json_parse net E fm) = [deepseek_call E fm].
Proof. apply provider_leg_calls. Qed.

(** Every call the orchestrator issues carries [finalMessages]. *)
Lemma orchestrate_calls_messages (E : env) (fm : list jvalue) (c : call) :
  In c (fst (orchestrate json_parse net E fm)) -> c_messages c = fm.
Proof.
  unfold orchestrate.
  pose proof (groq_attempt_calls E fm) as H1.
  pose proof (deepseek_attempt_calls E fm) as H2.
  destruct (groq_attempt json_parse net E fm) as [t1 [e1|x1]];
  destruct (deepseek_attempt json_parse net E fm) as [t2 [e2|x2]];
  simpl in *; subst;
  destruct (env_truthy _); simpl; intuition (subst; reflexivity).
Qed.

Lemma handler_calls_messages (method raw : string) (E : env) (body : jvalue) (c : call) :
  json_parse raw = Some body ->
  In c (fst (on_request_post json_parse net method raw E)) ->
  exists fm, final_messages body = Some fm /\ c_messages c = fm.
Proof.
  intros Hp. unfold on_request_post.
  destruct (String.eqb method "OPTIONS"); [simpl; tauto|].
  rewrite Hp. destruct (final_messages body) as [fm|]; [|simpl; tauto].
  intros Hin. exists fm. split; [reflexivity|].
  exact (orchestrate_calls_messages E fm c Hin).
Qed.

(** The calls of the orchestrator: Groq's when configured, then DeepSeek's
    when the Groq attempt failed. *)
Lemma orchestrate_calls (E : env) (fm : list jvalue) :
  fst (orchestrate json_parse net E fm) =
  ((if env_truthy (GROQ_API_KEY E) then [groq_call E fm] else []) ++
   match snd (groq_attempt json_parse net E fm) with
   | inl _ => [deepseek_call E fm]
   | inr _ => []
   end)%list.
Proof.
  rewrite <- groq_attempt_calls, <- (deepseek_attempt_calls E fm).
  unfold orchestrate.
  destruct (groq_attempt json_parse net E fm) as [t1 [e1|x1]]; simpl;
  [destruct (deepseek_attempt json_parse net E fm) as [t2 [e2|x2]] | rewrite app_nil_r];
  reflexivity.
Qed.

(** Every per-provider failure is caught: the orchestrator always returns. *)
Lemma orchestrate_returns (E : env) (fm : list jvalue) :
  exists r, snd (orchestrate json_parse net E fm) = Return r.
Proof.
  unfold orchestrate.
  destruct (groq_attempt json_parse net E fm) as [t1 [e1|x1]];
  [destruct (deepseek_attempt json_parse net E fm) as [t2 [e2|x2]]|];
  eexists; reflexivity.
Qed.

Lemma handler_orchestrate (method raw : string) (E : env) (body : jvalue) (fm : list jvalue) :
  method <> "OPTIONS" -> json_parse raw = Some body -> final_messages body = Some fm ->
  on_request_post json_parse net method raw E = orchestrate json_parse net E fm.
Proof.
  intros Hm Hp Hf. apply String.eqb_neq in Hm.
  unfold on_request_post. now rewrite Hm, Hp, Hf.
Qed.

End HandlerFacts.

(** The concrete inputs of the witnesses and counterexamples below. *)

(** An environment with no variable set. *)
Definition env_none : env := mk_env None None None None.

(** A double quote, and a quoted JSON string. *)
Definition dq : string := String (Ascii.ascii_of_nat 34) EmptyString.
Definition q (s : string) : string := dq ++ s ++ dq.

(** The request body [{"messages":[]}] and its [JSON.parse] value. *)
Definition req_raw : string := "{" ++ q "messages" ++ ":[]}".
Definition req_body : jvalue := JObj [("messages", JArr [])].

(** A chat-completion answer [{"choices":[{"message":{"content":"Sәlem"}}]}]. *)
Definition salem_raw : string :=
  "{" ++ q "choices" ++ ":[{" ++ q "message" ++ ":{" ++ q "content" ++ ":" ++ q "Sәlem" ++ "}}]}".
Definition salem_data : jvalue :=
  JObj [("choices", JArr [JObj [("message", JObj [("content", JStr "Sәlem")])]])].

(** An error body [{"error":{"toString":1}}]. *)
Definition tostring_raw : string := "{" ++ q "error" ++ ":{" ++ q "toString" ++ ":1}}".
Definition tostring_data : jvalue := JObj [("error", JObj [("toString", JNum "1")])].

(** A [JSON.parse] that knows the JSON texts used below. *)
Definition sample_parse : string -> option jvalue :=
  table_parse [(req_raw, req_body); ("{}", JObj []);
               (salem_raw, salem_data); (tostring_raw, tostring_data)].

(** A network on which every call is rejected. *)
Definition net_down : call -> fetch_outcome :=
  fun _ => FetchThrow (mk_err "TypeError" "fetch failed").

(** ** C9: malformed request JSON *)

(** C9: when the request body is not JSON, the endpoint answers 400 with
    [{error: "Invalid JSON"}] and issues no provider call (the handler is
    [onRequestPost], so the method is not [OPTIONS]). *)
Theorem invalid_json_400 (json_parse : string -> option jvalue) (net : call -> fetch_outcome)
    (method raw : string) (E : env) :
  method <> "OPTIONS" -> json_parse raw = None ->
  on_request_post json_parse net method raw E =
  ([], Return (mk_response 400 (BodyJson (JObj [("error", JStr "Invalid JSON")])))).
Proof.
  intros Hm Hp. unfold on_request_post.
  apply String.eqb_neq in Hm. now rewrite Hm, Hp.
Qed.

Lemma invalid_json_400_witness :
  "POST" <> "OPTIONS" /\ sample_parse "{oops" = None /\
  on_request_post sample_parse net_down "POST" "{oops" env_none =
  ([], Return (mk_response 400 (BodyJson (JObj [("error", JStr "Invalid JSON")])))).
Proof.
  split; [discriminate|]. split; [reflexivity|].
  apply invalid_json_400; [discriminate | reflexivity].
Defined.

(** ** C1: total failure *)

(** C1: when the Groq attempt fails with message X and the DeepSeek attempt
    fails with message Y, the handler answers 500 with an error message that
    contains X, Y, "GROQ" and "DEEPSEEK". *)
Theorem total_failure_names_both (json_parse : string -> option jvalue)
    (net : call -> fetch_outcome) (method raw : string) (E : env) (body : jvalue)
    (fm : list jvalue) (t1 t2 : list call) (e1 e2 : err) :
  method <> "OPTIONS" -> json_parse raw = Some body -> final_messages body = Some fm ->
  groq_attempt json_parse net E fm = (t1, inl e1) ->
  deepseek_attempt json_parse net E fm = (t2, inl e2) ->
  exists s,
    snd (on_request_post json_parse net method raw E) =
      Return (mk_response 500 (BodyJson (JObj [("error", JStr s)]))) /\
    contains s (emsg e1) /\ contains s (emsg e2) /\
    contains s "GROQ" /\ contains s "DEEPSEEK".
Proof.
  intros Hm Hp Hf H1 H2. apply String.eqb_neq in Hm.
  unfold on_request_post, orchestrate. rewrite Hm, Hp, Hf, H1, H2.
  exists (total_failure_message e1 e2). unfold total_failure_message.
  split; [reflexivity|]. split; [|split; [|split]].
  - apply contains_err_string.
    exists "GROQ失败：", ("；DEEPSEEK失败：" ++ err_string e2). reflexivity.
  - apply contains_err_string.
    exists ("GROQ失败：" ++ err_string e1 ++ "；DEEPSEEK失败："), "".
    now rewrite str_app_nil, !str_app_assoc.
  - exists "", ("失败：" ++ err_string e1 ++ "；DEEPSEEK失败：" ++ err_string e2).
    reflexivity.
  - exists ("GROQ失败：" ++ err_string e1 ++ "；"), ("失败：" ++ err_string e2).
    now rewrite !str_app_assoc.
Qed.

Lemma total_failure_names_both_witness :
  exists s,
    snd (on_request_post sample_parse net_down "POST" "{}" env_none) =
      Return (mk_response 500 (BodyJson (JObj [("error", JStr s)]))) /\
    contains s "GROQ not configured" /\ contains s "fetch failed" /\
    contains s "GROQ" /\ contains s "DEEPSEEK".
Proof.
  exact (total_failure_names_both sample_parse net_down "POST" "{}" env_none (JObj [])
           _ [] _
           (new_Error "GROQ not configured") (mk_err "TypeError" "fetch failed")
           ltac:(discriminate) eq_refl eq_refl eq_refl eq_refl).
Defined.

(** ** C2: an unconfigured primary *)

(** C2 (counterexample): with [GROQ_API_KEY] absent, the failure recorded for
    the primary attempt has the message "GROQ not configured", not
    "not configured". *)
Lemma groq_unconfigured_message :
  groq_attempt sample_parse net_down env_none [] = ([], inl (new_Error "GROQ not configured")) /\
  emsg (new_Error "GROQ not configured") <> "not configured".
Proof. split; [reflexivity | discriminate]. Qed.

(** C2 (amended): when [GROQ_API_KEY] is absent or empty, the primary attempt
    issues no call and fails at once with "GROQ not configured"; the only
    call is DeepSeek's, and the outcome is DeepSeek's answer, or the 500
    total failure that carries "GROQ not configured". *)
Theorem groq_unconfigured_goes_to_deepseek (json_parse : string -> option jvalue)
    (net : call -> fetch_outcome) (method raw : string) (E : env) (body : jvalue)
    (fm : list jvalue) :
  method <> "OPTIONS" -> json_parse raw = Some body -> final_messages body = Some fm ->
  env_truthy (GROQ_API_KEY E) = false ->
  groq_attempt json_parse net E fm = ([], inl (new_Error "GROQ not configured")) /\
  fst (on_request_post json_parse net method raw E) = [deepseek_call E fm] /\
  (forall c, In c (fst (on_request_post json_parse net method raw E)) -> c_url c <> GROQ_URL) /\
  snd (on_request_post json_parse net method raw E) =
    match snd (deepseek_attempt json_parse net E fm) with
    | inr text => ok_json (JObj [("text", text); ("engine", JStr "DEEPSEEK")])
    | inl e2 => Return (mk_response 500 (BodyJson (JObj
                  [("error", JStr (total_failure_message (new_Error "GROQ not configured") e2))])))
    end.
Proof.
  intros Hm Hp Hf Hg.
  rewrite (handler_orchestrate json_parse net method raw E body fm Hm Hp Hf).
  assert (Hga : groq_attempt json_parse net E fm = ([], inl (new_Error "GROQ not configured")))
    by (unfold groq_attempt; now rewrite Hg).
  assert (Hcalls : fst (orchestrate json_parse net E fm) = [deepseek_call E fm])
    by (rewrite orchestrate_calls, Hg, Hga; reflexivity).
  split; [exact Hga|]. split; [exact Hcalls|]. split.
  - rewrite Hcalls. intros c [<-|[]]. discriminate.
  - unfold orchestrate. rewrite Hga.
    destruct (deepseek_attempt json_parse net E fm) as [t2 [e2|x2]]; reflexivity.
Qed.

Lemma groq_unconfigured_goes_to_deepseek_witness :
  fst (on_request_post sample_parse net_down "POST" req_raw env_none) =
    [deepseek_call env_none (match final_messages req_body with Some fm => fm | None => [] end)].
Proof.
  exact (proj1 (proj2 (groq_unconfigured_goes_to_deepseek sample_parse net_down "POST" req_raw
           env_none req_body _ ltac:(discriminate) eq_refl eq_refl eq_refl))).
Defined.

(** ** C3: missing keys *)

(** C3 (counterexample): with both keys absent the DeepSeek call is still
    issued, with the header "Bearer undefined". *)
Lemma deepseek_called_without_key :
  DEEPSEEK_API_KEY env_none = None /\
  exists c, In c (fst (on_request_post sample_parse net_down "POST" req_raw env_none)) /\
    c_url c = DEEPSEEK_URL /\ c_auth c = "Bearer undefined".
Proof.
  split; [reflexivity|]. eexists. split; [left; reflexivity | split; reflexivity].
Qed.

(** C3 (amended): only the primary key is checked.  Without it no call goes
    to Groq; the DeepSeek call is issued whenever the Groq attempt fails,
    with "Bearer undefined" when [DEEPSEEK_API_KEY] is absent; and the
    handler always answers with a response rather than rejecting. *)
Theorem provider_keys_effect (json_parse : string -> option jvalue)
    (net : call -> fetch_outcome) (method raw : string) (E : env) (body : jvalue)
    (fm : list jvalue) :
  method <> "OPTIONS" -> json_parse raw = Some body -> final_messages body = Some fm ->
  (env_truthy (GROQ_API_KEY E) = false ->
     forall c, In c (fst (on_request_post json_parse net method raw E)) -> c_url c <> GROQ_URL) /\
  ((exists e1, snd (groq_attempt json_parse net E fm) = inl e1) ->
     In (deepseek_call E fm) (fst (on_request_post json_parse net method raw E))) /\
  (DEEPSEEK_API_KEY E = None ->
     forall c, In c (fst (on_request_post json_parse net method raw E)) ->
     c_url c = DEEPSEEK_URL -> c_auth c = "Bearer undefined") /\
  (exists r, snd (on_request_post json_parse net method raw E) = Return r).
Proof.
  intros Hm Hp Hf.
  rewrite (handler_orchestrate json_parse net method raw E body fm Hm Hp Hf).
  rewrite orchestrate_calls.
  split; [|split; [|split]].
  - intros Hg c. rewrite Hg. simpl.
    destruct (snd (groq_attempt json_parse net E fm)); simpl; [intros [<-|[]]; discriminate | intros []].
  - intros [e1 He1]. rewrite He1. apply in_or_app. right. left. reflexivity.
  - intros Hd c Hin Hu. apply in_app_or in Hin.
    destruct Hin as [Hin|Hin].
    + destruct (env_truthy _); [destruct Hin as [<-|[]]; discriminate | destruct Hin].
    + destruct (snd (groq_attempt json_parse net E fm)); [|destruct Hin].
      destruct Hin as [<-|[]]. simpl. now rewrite Hd.
  - apply orchestrate_returns.
Qed.

Lemma provider_keys_effect_witness :
  In (deepseek_call env_none (match final_messages req_body with Some fm => fm | None => [] end))
     (fst (on_request_post sample_parse net_down "POST" req_raw env_none)).
Proof.
  apply (proj1 (proj2 (provider_keys_effect sample_parse net_down "POST" req_raw
           env_none req_body _ ltac:(discriminate) eq_refl eq_refl))).
  eexists. reflexivity.
Defined.

(** ** C4: extraction order *)

Example normalizer_salem :
  parse_open_ai_compat sample_parse 200 (inr salem_raw) = inr (JStr "Sәlem").
Proof. reflexivity. Qed.

(** C4: on a success status with a JSON body, the normalizer returns the
    first non-empty of [choices[0].message.content], [choices[0].text] and
    [text], and fails with "Empty response text" when none is. *)
Theorem extraction_order (json_parse : string -> option jvalue) (status : Z)
    (raw : string) (data : jvalue) :
  res_ok status = true -> json_parse raw = Some data ->
  parse_open_ai_compat json_parse status (inr raw) = extract_spec data.
Proof.
  intros Hok Hp. unfold parse_open_ai_compat, extract_spec.
  rewrite Hp, Hok. simpl negb. cbv iota.
  unfold choice_content, choice_text, top_text, js_or. simpl first_truthy.
  destruct (truthy (prop (prop (at0 (prop data "choices")) "message") "content")) eqn:H1;
  [rewrite H1; reflexivity|].
  destruct (truthy (prop (at0 (prop data "choices")) "text")) eqn:H2;
  [rewrite H2; reflexivity|].
  destruct (truthy (prop data "text")) eqn:H3; rewrite ?H3; reflexivity.
Qed.

Lemma extraction_order_witness :
  parse_open_ai_compat sample_parse 200 (inr salem_raw) = inr (JStr "Sәlem").
Proof.
  rewrite (extraction_order sample_parse 200 salem_raw salem_data eq_refl eq_refl).
  reflexivity.
Defined.

(** ** C5: bodies that are not JSON *)

(** C5 (counterexample): a 200 response with body "oops" fails with
    "Empty response text", which does not contain "oops". *)
Lemma invalid_json_ok_status :
  sample_parse "oops" = None /\
  parse_open_ai_compat sample_parse 200 (inr "oops") = inl (new_Error "Empty response text") /\
  ~ contains (emsg (new_Error "Empty response text")) (js_slice 300 "oops").
Proof.
  split; [reflexivity|]. split; [reflexivity|].
  intros H. apply contains_substrb in H. vm_compute in H. discriminate.
Qed.

(** C5 (amended): when the body is not JSON, a non-success status fails with
    the first 300 UTF-16 code units of the body as message (["HTTP {status}"] when
    the body is empty), and a success status fails with "Empty response text". *)
Theorem invalid_json_message (json_parse : string -> option jvalue) (status : Z) (raw : string) :
  json_parse raw = None ->
  (res_ok status = false ->
     exists e, parse_open_ai_compat json_parse status (inr raw) = inl e /\
       emsg e = (if String.eqb (js_slice 300 raw) "" then "HTTP " ++ z_dec status
                 else js_slice 300 raw) /\
       contains (emsg e) (js_slice 300 raw)) /\
  (res_ok status = true ->
     parse_open_ai_compat json_parse status (inr raw) = inl (new_Error "Empty response text")).
Proof.
  intros Hp. unfold parse_open_ai_compat. rewrite Hp. split; intros Hok; rewrite Hok.
  - simpl negb. cbv iota. unfold js_or. simpl prop. simpl truthy.
    destruct (String.eqb_spec (js_slice 300 raw) "") as [He|Hne]; simpl.
    + eexists. split; [reflexivity|]. split; [reflexivity|]. rewrite He. apply contains_empty.
    + eexists. split; [reflexivity|]. split; [reflexivity|].
      exists "", "". simpl. now rewrite str_app_nil.
  - reflexivity.
Qed.

Lemma invalid_json_message_witness :
  exists e, parse_open_ai_compat sample_parse 502 (inr "Bad gateway") = inl e /\
    emsg e = "Bad gateway".
Proof.
  destruct (proj1 (invalid_json_message sample_parse 502 "Bad gateway" eq_refl) eq_refl)
    as [e [He [Hm _]]].
  exists e. split; [exact He | exact Hm].
Defined.

(** ** C6: messages of non-success responses *)

(** [{"error":1e21}] at status 500 fails with the message "1e+21". *)
Example error_number_message :
  parse_open_ai_compat (table_parse [("{" ++ q "error" ++ ":1e21}", JObj [("error", JNum "1e+21")])])
    500 (inr ("{" ++ q "error" ++ ":1e21}")) = inl (new_Error "1e+21").
Proof. reflexivity. Qed.

(** C6 (counterexample): for a 500 response [{"error":{"toString":1}}] the
    error field has no string form, and the failure is the TypeError of that
    conversion, neither a message from the field nor "HTTP 500". *)
Lemma error_field_without_string_form :
  sample_parse tostring_raw = Some tostring_data /\
  js_to_string (prop tostring_data "error") = inl type_error_to_primitive /\
  parse_open_ai_compat sample_parse 500 (inr tostring_raw) = inl type_error_to_primitive /\
  ~ (exists m, parse_open_ai_compat sample_parse 500 (inr tostring_raw) = inl (new_Error m)).
Proof.
  split; [reflexivity|]. split; [reflexivity|]. split; [reflexivity|].
  intros [m H]. vm_compute in H. discriminate.
Qed.

(** C6 (amended): on a non-success status the normalizer fails.  The source
    value is [error.message] if truthy, else [error] if truthy, else
    ["HTTP {status}"], read from the parsed body (or the synthetic
    [{error: raw.slice(0, 300)}]).  The failure is an Error whose message is
    that value's string form (a string is taken as it is); when the value has
    no string form (an object with its own [toString]), the failure is that
    TypeError. *)
Theorem non_ok_error_message (json_parse : string -> option jvalue) (status : Z) (raw : string) :
  res_ok status = false ->
  (forall m, js_to_string (error_source (data_of json_parse raw) status) = inr m ->
     parse_open_ai_compat json_parse status (inr raw) = inl (new_Error m)) /\
  (forall s, error_source (data_of json_parse raw) status = JStr s ->
     parse_open_ai_compat json_parse status (inr raw) = inl (new_Error s)) /\
  (forall e, js_to_string (error_source (data_of json_parse raw) status) = inl e ->
     parse_open_ai_compat json_parse status (inr raw) = inl e /\ e = type_error_to_primitive).
Proof.
  intros Hok.
  assert (Hsrc : forall r,
            js_to_string (error_source (data_of json_parse raw) status) = r ->
            parse_open_ai_compat json_parse status (inr raw) =
            match r with inl e => inl e | inr m => inl (new_Error m) end).
  { intros r Hr. subst r. unfold parse_open_ai_compat. rewrite Hok. simpl negb. cbv iota.
    unfold error_source, data_of, js_or. simpl first_truthy.
    destruct (truthy (prop (prop (match json_parse raw with
                                  | Some d => d
                                  | None => JObj [("error", JStr (js_slice 300 raw))]
                                  end) "error") "message"));
    [reflexivity|].
    destruct (truthy (prop (match json_parse raw with
                            | Some d => d
                            | None => JObj [("error", JStr (js_slice 300 raw))]
                            end) "error")); reflexivity. }
  split; [|split].
  - intros m Hm. exact (Hsrc _ Hm).
  - intros s0 Hs. apply (Hsrc (inr s0)). rewrite Hs. reflexivity.
  - intros e He. split; [exact (Hsrc _ He) | exact (js_to_string_err _ _ He)].
Qed.

Lemma non_ok_error_message_witness :
  parse_open_ai_compat sample_parse 500 (inr "{}") = inl (new_Error "HTTP 500").
Proof.
  apply (proj1 (non_ok_error_message sample_parse 500 "{}" eq_refl)). reflexivity.
Defined.

(** ** C7, C8, C10: the outbound message list *)

(** The single call of the sample request (Groq unconfigured). *)
Definition sample_call : call :=
  deepseek_call env_none (match final_messages req_body with Some fm => fm | None => [] end).

(** C8: every call sent to a provider carries exactly one synthesized system
    message followed by the caller's [messages] as they are, or by nothing
    when [body.messages] is not an array. *)
Theorem outbound_messages_shape (json_parse : string -> option jvalue)
    (net : call -> fetch_outcome) (method raw : string) (E : env) (body : jvalue) (c : call) :
  json_parse raw = Some body ->
  In c (fst (on_request_post json_parse net method raw E)) ->
  exists content rest,
    c_messages c = system_message content :: rest /\
    (forall xs, prop body "messages" = JArr xs -> rest = xs) /\
    ((forall xs, prop body "messages" <> JArr xs) -> rest = []).
Proof.
  intros Hp Hin.
  destruct (handler_calls_messages json_parse net method raw E body c Hp Hin) as [fm [Hf ->]].
  rewrite (final_messages_shape body fm Hf).
  eexists. exists (messages_of body). split; [reflexivity|]. unfold messages_of. split.
  - intros xs ->. reflexivity.
  - intros Hna. destruct (prop body "messages"); try reflexivity. exfalso. exact (Hna xs eq_refl).
Qed.

(** Request bodies [{"messages":[{"role":"user","content":"Salem"}]}] and
    [{"messages":"hi"}]. *)
Definition user_msg : jvalue := JObj [("role", JStr "user"); ("content", JStr "Salem")].
Definition msgs_raw : string :=
  "{" ++ q "messages" ++ ":[{" ++ q "role" ++ ":" ++ q "user" ++ "," ++
  q "content" ++ ":" ++ q "Salem" ++ "}]}".
Definition msgs_body : jvalue := JObj [("messages", JArr [user_msg])].
Definition str_msgs_raw : string := "{" ++ q "messages" ++ ":" ++ q "hi" ++ "}".
Definition str_msgs_body : jvalue := JObj [("messages", JStr "hi")].
Definition msgs_parse : string -> option jvalue :=
  table_parse [(msgs_raw, msgs_body); (str_msgs_raw, str_msgs_body)].

(** The DeepSeek call a request body leads to without any key. *)
Definition call_for (body : jvalue) : call :=
  deepseek_call env_none (match final_messages body with Some fm => fm | None => [] end).

Lemma outbound_messages_shape_witness :
  (exists content, c_messages (call_for msgs_body) = [system_message content; user_msg]) /\
  (exists content, c_messages (call_for str_msgs_body) = [system_message content]).
Proof.
  split.
  - destruct (outbound_messages_shape msgs_parse net_down "POST" msgs_raw env_none msgs_body
                (call_for msgs_body) eq_refl (or_introl eq_refl)) as [content [rest [H [Ha _]]]].
    exists content. rewrite H, (Ha [user_msg] eq_refl). reflexivity.
  - destruct (outbound_messages_shape msgs_parse net_down "POST" str_msgs_raw env_none
                str_msgs_body (call_for str_msgs_body) eq_refl (or_introl eq_refl))
      as [content [rest [H [_ Hn]]]].
    exists content. rewrite H, Hn; [reflexivity|]. intros xs. discriminate.
Defined.

(** C7: the (defaulted) [targetLang] selects the language directive of the
    system message: "kk" Kazakh, "ru" Russian, any other value Chinese. *)
Theorem language_directive (json_parse : string -> option jvalue)
    (net : call -> fetch_outcome) (method raw : string) (E : env) (body : jvalue) (c : call) :
  json_parse raw = Some body ->
  In c (fst (on_request_post json_parse net method raw E)) ->
  exists D rest,
    c_messages c = system_message (system_prompt D (style_rule (style_of body))) :: rest /\
    (target_lang body = JStr "kk" -> D = KK_RULE) /\
    (target_lang body = JStr "ru" -> D = RU_RULE) /\
    (target_lang body <> JStr "kk" -> target_lang body <> JStr "ru" -> D = ZH_RULE).
Proof.
  intros Hp Hin.
  destruct (handler_calls_messages json_parse net method raw E body c Hp Hin) as [fm [Hf ->]].
  rewrite (final_messages_shape body fm Hf).
  exists (lang_rule (target_lang body)), (messages_of body).
  split; [reflexivity|]. unfold lang_rule, js_str_eq.
  split; [|split].
  - intros ->. reflexivity.
  - intros ->. reflexivity.
  - intros Hk Hr. destruct (target_lang body); try reflexivity.
    destruct (String.eqb_spec s "kk") as [->|_]; [contradiction|].
    destruct (String.eqb_spec s "ru") as [->|_]; [contradiction|reflexivity].
Qed.

Lemma language_directive_witness :
  exists D rest,
    c_messages sample_call = system_message (system_prompt D (style_rule (style_of req_body))) :: rest /\
    (target_lang req_body = JStr "kk" -> D = KK_RULE) /\
    (target_lang req_body = JStr "ru" -> D = RU_RULE) /\
    (target_lang req_body <> JStr "kk" -> target_lang req_body <> JStr "ru" -> D = ZH_RULE).
Proof.
  exact (language_directive sample_parse net_down "POST" req_raw env_none req_body
           sample_call eq_refl (or_introl eq_refl)).
Defined.

(** C10: a missing or falsy [targetLang] defaults to "kk": every call then
    carries the Kazakh directive, not the Chinese one. *)
Theorem falsy_target_lang_kazakh (json_parse : string -> option jvalue)
    (net : call -> fetch_outcome) (method raw : string) (E : env) (body : jvalue) (c : call) :
  json_parse raw = Some body ->
  truthy (prop body "targetLang") = false ->
  In c (fst (on_request_post json_parse net method raw E)) ->
  exists rest,
    c_messages c = system_message (system_prompt KK_RULE (style_rule (style_of body))) :: rest.
Proof.
  intros Hp Ht Hin.
  destruct (handler_calls_messages json_parse net method raw E body c Hp Hin) as [fm [Hf ->]].
  rewrite (final_messages_shape body fm Hf).
  exists (messages_of body). unfold target_lang, js_or. rewrite Ht. reflexivity.
Qed.

Lemma falsy_target_lang_kazakh_witness :
  exists rest,
    c_messages sample_call =
      system_message (system_prompt KK_RULE (style_rule (style_of req_body))) :: rest.
Proof.
  exact (falsy_target_lang_kazakh sample_parse net_down "POST" req_raw env_none req_body
           sample_call eq_refl eq_refl (or_introl eq_refl)).
Defined.

(** * Further properties of the handler *)

(** An environment with only the Groq key set. *)
Definition env_groq : env := mk_env (Some "gsk") None None None.

(** A network on which every call answers 200 with [salem_raw]. *)
Definition net_ok : call -> fetch_outcome := fun _ => FetchResp 200 (inr salem_raw).

(** A network on which Groq is unreachable and DeepSeek answers [salem_raw]. *)
Definition net_groq_down : call -> fetch_outcome :=
  fun c => if String.eqb (c_url c) GROQ_URL then FetchThrow (mk_err "TypeError" "fetch failed")
           else FetchResp 200 (inr salem_raw).

Lemma len_go_slice_go (s : string) : forall n copy,
  len_go copy (slice_go n copy s) = Nat.min n (len_go copy s).
Proof.
  induction s as [|c r IH]; intros n copy; [destruct n; reflexivity|].
  destruct copy as [|k]; simpl.
  - destruct n as [|n']; [reflexivity|].
    unfold seq_units. destruct (Nat.eqb (seq_width c) 4) eqn:Hw.
    + destruct n' as [|n'']; [unfold high_surrogate; simpl; lia|].
      apply Nat.eqb_eq in Hw. cbn [len_go]. unfold seq_units. rewrite Hw. simpl.
      rewrite IH. lia.
    + simpl. unfold seq_units. rewrite Hw. rewrite IH. lia.
  - apply IH.
Qed.

Lemma js_slice_nonempty (n : nat) (s : string) :
  s <> "" -> js_slice (S (S n)) s <> "".
Proof.
  destruct s as [|c r]; [contradiction|]. intros _. unfold js_slice. simpl.
  destruct (Nat.eqb (seq_width c) 4); discriminate.
Qed.

(** [raw.slice(0, n).length] is [min(n, raw.length)]. *)
Lemma js_slice_length (n : nat) (s : string) :
  js_length (js_slice n s) = Nat.min n (js_length s).
Proof. apply len_go_slice_go. Qed.


(** The style directive of every outbound system message: "concise" gives
    "Be concise.", "polite" gives "Be polite.", anything else, including a
    missing or falsy [style] (defaulted to "normal"), gives
    "Be natural and helpful.". *)
Theorem style_directive (json_parse : string -> option jvalue)
    (net : call -> fetch_outcome) (method raw : string) (E : env) (body : jvalue) (c : call) :
  json_parse raw = Some body ->
  In c (fst (on_request_post json_parse net method raw E)) ->
  exists S rest,
    c_messages c = system_message (system_prompt (lang_rule (target_lang body)) S) :: rest /\
    (prop body "style" = JStr "concise" -> S = "Be concise.") /\
    (prop body "style" = JStr "polite" -> S = "Be polite.") /\
    (prop body "style" <> JStr "concise" -> prop body "style" <> JStr "polite" ->
       S = "Be natural and helpful.").
Proof.
  intros Hp Hin.
  destruct (handler_calls_messages json_parse net method raw E body c Hp Hin) as [fm [Hf ->]].
  rewrite (final_messages_shape body fm Hf).
  exists (style_rule (style_of body)), (messages_of body).
  split; [reflexivity|]. unfold style_rule, style_of, js_or, js_str_eq.
  split; [|split].
  - intros ->. reflexivity.
  - intros ->. reflexivity.
  - intros Hc Hpo. destruct (truthy (prop body "style")); [|reflexivity].
    destruct (prop body "style") as [| | | |s0| |]; try reflexivity.
    destruct (String.eqb_spec s0 "concise") as [->|_]; [contradiction|].
    destruct (String.eqb_spec s0 "polite") as [->|_]; [contradiction|reflexivity].
Qed.

Lemma style_directive_witness :
  exists S rest,
    c_messages sample_call = system_message (system_prompt (lang_rule (target_lang req_body)) S) :: rest /\
    (prop req_body "style" = JStr "concise" -> S = "Be concise.") /\
    (prop req_body "style" = JStr "polite" -> S = "Be polite.") /\
    (prop req_body "style" <> JStr "concise" -> prop req_body "style" <> JStr "polite" ->
       S = "Be natural and helpful.").
Proof.
  exact (style_directive sample_parse net_down "POST" req_raw env_none req_body
           sample_call eq_refl (or_introl eq_refl)).
Defined.

(** When the Groq attempt yields a text, the handler answers 200 with that
    text and engine "GROQ", and Groq is the only provider called. *)
Theorem groq_success_short_circuits (json_parse : string -> option jvalue)
    (net : call -> fetch_outcome) (method raw : string) (E : env) (body : jvalue)
    (fm : list jvalue) (text : jvalue) :
  method <> "OPTIONS" -> json_parse raw = Some body -> final_messages body = Some fm ->
  snd (groq_attempt json_parse net E fm) = inr text ->
  on_request_post json_parse net method raw E =
    ([groq_call E fm], ok_json (JObj [("text", text); ("engine", JStr "GROQ")])).
Proof.
  intros Hm Hp Hf Ht.
  rewrite (handler_orchestrate json_parse net method raw E body fm Hm Hp Hf).
  pose proof (groq_attempt_calls json_parse net E fm) as Hc.
  unfold orchestrate.
  destruct (groq_attempt json_parse net E fm) as [t1 r1] eqn:Hg. simpl in Ht, Hc. subst r1.
  destruct (env_truthy (GROQ_API_KEY E)) eqn:Hk.
  - now subst t1.
  - unfold groq_attempt in Hg. rewrite Hk in Hg. discriminate.
Qed.

Lemma groq_success_short_circuits_witness :
  on_request_post sample_parse net_ok "POST" req_raw env_groq =
    ([groq_call env_groq (match final_messages req_body with Some fm => fm | None => [] end)],
     ok_json (JObj [("text", JStr "Sәlem"); ("engine", JStr "GROQ")])).
Proof.
  exact (groq_success_short_circuits sample_parse net_ok "POST" req_raw env_groq req_body _
           (JStr "Sәlem") ltac:(discriminate) eq_refl eq_refl eq_refl).
Defined.

(** With the Groq key set and the Groq attempt failing, exactly two calls are
    issued, Groq's and then DeepSeek's, with the same message list. *)
Theorem fallback_call_order (json_parse : string -> option jvalue)
    (net : call -> fetch_outcome) (method raw : string) (E : env) (body : jvalue)
    (fm : list jvalue) (e1 : err) :
  method <> "OPTIONS" -> json_parse raw = Some body -> final_messages body = Some fm ->
  env_truthy (GROQ_API_KEY E) = true ->
  snd (groq_attempt json_parse net E fm) = inl e1 ->
  fst (on_request_post json_parse net method raw E) = [groq_call E fm; deepseek_call E fm].
Proof.
  intros Hm Hp Hf Hk He.
  rewrite (handler_orchestrate json_parse net method raw E body fm Hm Hp Hf).
  rewrite orchestrate_calls, Hk, He. reflexivity.
Qed.

Lemma fallback_call_order_witness :
  fst (on_request_post sample_parse net_groq_down "POST" req_raw env_groq) =
    [groq_call env_groq (match final_messages req_body with Some fm => fm | None => [] end);
     deepseek_call env_groq (match final_messages req_body with Some fm => fm | None => [] end)].
Proof.
  exact (fallback_call_order sample_parse net_groq_down "POST" req_raw env_groq req_body _
           (mk_err "TypeError" "fetch failed") ltac:(discriminate) eq_refl eq_refl eq_refl eq_refl).
Defined.

(** When the Groq attempt fails (for any reason, configuration included) and
    the DeepSeek attempt yields a text, the handler answers 200 with that
    text and engine "DEEPSEEK"; the Groq failure is not reported. *)
Theorem deepseek_success_after_fallback (json_parse : string -> option jvalue)
    (net : call -> fetch_outcome) (method raw : string) (E : env) (body : jvalue)
    (fm : list jvalue) (e1 : err) (text : jvalue) :
  method <> "OPTIONS" -> json_parse raw = Some body -> final_messages body = Some fm ->
  snd (groq_attempt json_parse net E fm) = inl e1 ->
  snd (deepseek_attempt json_parse net E fm) = inr text ->
  snd (on_request_post json_parse net method raw E) =
    ok_json (JObj [("text", text); ("engine", JStr "DEEPSEEK")]).
Proof.
  intros Hm Hp Hf H1 H2.
  rewrite (handler_orchestrate json_parse net method raw E body fm Hm Hp Hf).
  unfold orchestrate.
  destruct (groq_attempt json_parse net E fm) as [t1 r1]. simpl in H1. subst r1.
  destruct (deepseek_attempt json_parse net E fm) as [t2 r2]. simpl in H2. subst r2.
  reflexivity.
Qed.

Lemma deepseek_success_after_fallback_witness :
  snd (on_request_post sample_parse net_groq_down "POST" req_raw env_groq) =
    ok_json (JObj [("text", JStr "Sәlem"); ("engine", JStr "DEEPSEEK")]).
Proof.
  exact (deepseek_success_after_fallback sample_parse net_groq_down "POST" req_raw env_groq
           req_body _ (mk_err "TypeError" "fetch failed") (JStr "Sәlem")
           ltac:(discriminate) eq_refl eq_refl eq_refl eq_refl).
Defined.

(** For a request that reaches the providers, the calls issued are Groq's
    alone, DeepSeek's alone, or Groq's followed by DeepSeek's: at most one
    call per provider, never DeepSeek before Groq, never none. *)
Theorem call_sequences (json_parse : string -> option jvalue)
    (net : call -> fetch_outcome) (method raw : string) (E : env) (body : jvalue)
    (fm : list jvalue) :
  method <> "OPTIONS" -> json_parse raw = Some body -> final_messages body = Some fm ->
  let calls := fst (on_request_post json_parse net method raw E) in
  calls = [groq_call E fm] \/ calls = [deepseek_call E fm] \/
  calls = [groq_call E fm; deepseek_call E fm].
Proof.
  intros Hm Hp Hf. simpl.
  rewrite (handler_orchestrate json_parse net method raw E body fm Hm Hp Hf), orchestrate_calls.
  destruct (env_truthy (GROQ_API_KEY E)) eqn:Hk.
  - destruct (snd (groq_attempt json_parse net E fm)); simpl; auto.
  - unfold groq_attempt. rewrite Hk. simpl. auto.
Qed.

Lemma call_sequences_witness :
  fst (on_request_post sample_parse net_ok "POST" req_raw env_none) =
    [deepseek_call env_none (match final_messages req_body with Some fm => fm | None => [] end)].
Proof.
  destruct (call_sequences sample_parse net_ok "POST" req_raw env_none req_body _
              ltac:(discriminate) eq_refl eq_refl) as [H|[H|H]];
  [discriminate H | exact H | discriminate H].
Defined.

(** What each outbound call carries.  A Groq call is only made with a
    non-empty key, sent as "Bearer <key>", with a 6500 ms deadline and the
    model [GROQ_MODEL] or "llama-3.3-70b-versatile".  A DeepSeek call is sent
    with "Bearer " and the key as a template literal renders it, an 8500 ms
    deadline and the model [DEEPSEEK_MODEL] or "deepseek-chat". *)
Theorem outbound_call_fields (json_parse : string -> option jvalue)
    (net : call -> fetch_outcome) (method raw : string) (E : env) (c : call) :
  In c (fst (on_request_post json_parse net method raw E)) ->
  (c_url c = GROQ_URL /\
   (exists k, GROQ_API_KEY E = Some k /\ k <> "" /\ c_auth c = "Bearer " ++ k) /\
   c_timeout c = 6500%Z /\ c_model c = env_or (GROQ_MODEL E) "llama-3.3-70b-versatile") \/
  (c_url c = DEEPSEEK_URL /\ c_auth c = "Bearer " ++ env_string (DEEPSEEK_API_KEY E) /\
   c_timeout c = 8500%Z /\ c_model c = env_or (DEEPSEEK_MODEL E) "deepseek-chat").
Proof.
  unfold on_request_post.
  destruct (String.eqb method "OPTIONS"); [intros []|].
  destruct (json_parse raw) as [body|]; [|intros []].
  destruct (final_messages body) as [fm|]; [|intros []].
  rewrite orchestrate_calls. intros Hin. apply in_app_or in Hin. destruct Hin as [Hin|Hin].
  - left. destruct (GROQ_API_KEY E) as [k|] eqn:Hk; simpl in Hin; [|destruct Hin].
    destruct (String.eqb_spec k "") as [_|Hne]; simpl in Hin; [destruct Hin|].
    destruct Hin as [<-|[]]. simpl. rewrite Hk.
    split; [reflexivity|]. split; [exists k; auto|]. split; reflexivity.
  - right. destruct (snd (groq_attempt json_parse net E fm)); [|destruct Hin].
    destruct Hin as [<-|[]]. repeat split.
Qed.

Lemma outbound_call_fields_witness :
  c_url sample_call = DEEPSEEK_URL /\ c_auth sample_call = "Bearer undefined" /\
  c_timeout sample_call = 8500%Z /\ c_model sample_call = "deepseek-chat".
Proof.
  destruct (outbound_call_fields sample_parse net_down "POST" req_raw env_none sample_call
              (or_introl eq_refl)) as [[Hu _]|H].
  - discriminate Hu.
  - exact H.
Defined.

Lemma parse_success_ok_truthy (json_parse : string -> option jvalue) (status : Z)
    (body : err + string) (text : jvalue) :
  parse_open_ai_compat json_parse status body = inr text ->
  res_ok status = true /\ truthy text = true.
Proof.
  unfold parse_open_ai_compat. destruct body as [e|raw]; [discriminate|].
  destruct (res_ok status); simpl.
  - match goal with |- (if truthy ?t then _ else _) = _ -> _ =>
      destruct (truthy t) eqn:Ht end; [|discriminate].
    intros [= <-]. auto.
  - match goal with |- match ?m with _ => _ end = _ -> _ => destruct m end; discriminate.
Qed.

Lemma provider_leg_success (json_parse : string -> option jvalue) (net : call -> fetch_outcome)
    (c : call) (text : jvalue) :
  snd (provider_leg json_parse net c) = inr text -> truthy text = true.
Proof.
  unfold provider_leg. destruct (net c) as [e|st b]; [discriminate|].
  apply parse_success_ok_truthy.
Qed.

(** The normalizer only returns a text for a success status, and the text it
    returns is never empty (falsy). *)
Theorem normalizer_success (json_parse : string -> option jvalue) (status : Z)
    (body : err + string) (text : jvalue) :
  parse_open_ai_compat json_parse status body = inr text ->
  res_ok status = true /\ truthy text = true.
Proof. apply parse_success_ok_truthy. Qed.

Lemma normalizer_success_witness :
  res_ok 200 = true /\ truthy (JStr "Sәlem") = true.
Proof. exact (normalizer_success sample_parse 200 (inr salem_raw) _ eq_refl). Defined.

(** A [JSON.parse] that knows the text [null]. *)
Definition null_parse : string -> option jvalue := table_parse [("null", JNull)].

(** A request body that parses to [null] makes [body.messages] throw before
    any provider is called: the handler rejects.  It is the only way the
    handler rejects: every other request is answered with a response. *)
Theorem null_body_rejects (json_parse : string -> option jvalue)
    (net : call -> fetch_outcome) (method raw : string) (E : env) :
  (method <> "OPTIONS" -> json_parse raw = Some JNull ->
     on_request_post json_parse net method raw E = ([], Uncaught type_error_null)) /\
  (forall e, snd (on_request_post json_parse net method raw E) = Uncaught e ->
     e = type_error_null /\ (json_parse raw = Some JNull \/ json_parse raw = Some JUndef)).
Proof.
  split.
  - intros Hm Hp. apply String.eqb_neq in Hm. unfold on_request_post. now rewrite Hm, Hp.
  - intros e. unfold on_request_post.
    destruct (String.eqb method "OPTIONS"); [discriminate|].
    destruct (json_parse raw) as [body|]; [|discriminate].
    destruct (final_messages body) as [fm|] eqn:Hf.
    + destruct (orchestrate_returns json_parse net E fm) as [r ->]. discriminate.
    + intros [= <-]. split; [reflexivity|].
      destruct body; try discriminate; auto.
Qed.

Lemma null_body_rejects_witness :
  on_request_post null_parse net_ok "POST" "null" env_groq = ([], Uncaught type_error_null).
Proof.
  exact (proj1 (null_body_rejects null_parse net_ok "POST" "null" env_groq)
           ltac:(discriminate) eq_refl).
Defined.

(** Every response the handler returns has status 200, 400 or 500. *)
Theorem response_statuses (json_parse : string -> option jvalue)
    (net : call -> fetch_outcome) (method raw : string) (E : env) (r : response) :
  snd (on_request_post json_parse net method raw E) = Return r ->
  r_status r = 200%Z \/ r_status r = 400%Z \/ r_status r = 500%Z.
Proof.
  unfold on_request_post.
  destruct (String.eqb method "OPTIONS"); [intros [= <-]; auto|].
  destruct (json_parse raw) as [body|]; [|intros [= <-]; auto].
  destruct (final_messages body) as [fm|]; [|discriminate].
  unfold orchestrate.
  destruct (groq_attempt json_parse net E fm) as [t1 [e1|x1]];
  [destruct (deepseek_attempt json_parse net E fm) as [t2 [e2|x2]]|];
  simpl; intros [= <-]; simpl; auto.
Qed.

Lemma response_statuses_witness :
  r_status (mk_response 500 (BodyJson (JObj [("error", JStr
    (total_failure_message (new_Error "GROQ not configured") (mk_err "TypeError" "fetch failed")))])))
  = 200%Z \/
  r_status (mk_response 500 (BodyJson (JObj [("error", JStr
    (total_failure_message (new_Error "GROQ not configured") (mk_err "TypeError" "fetch failed")))])))
  = 400%Z \/
  r_status (mk_response 500 (BodyJson (JObj [("error", JStr
    (total_failure_message (new_Error "GROQ not configured") (mk_err "TypeError" "fetch failed")))])))
  = 500%Z.
Proof. exact (response_statuses sample_parse net_down "POST" req_raw env_none _ eq_refl). Defined.

(** Every 200 JSON answer is [{text, engine}] with a non-empty (truthy)
    text and engine "GROQ" or "DEEPSEEK". *)
Theorem success_body_shape (json_parse : string -> option jvalue)
    (net : call -> fetch_outcome) (method raw : string) (E : env) (v : jvalue) :
  snd (on_request_post json_parse net method raw E) = ok_json v ->
  exists text engine, v = JObj [("text", text); ("engine", JStr engine)] /\
    truthy text = true /\ (engine = "GROQ" \/ engine = "DEEPSEEK").
Proof.
  unfold on_request_post, ok_json.
  destruct (String.eqb method "OPTIONS"); [discriminate|].
  destruct (json_parse raw) as [body|]; [|discriminate].
  destruct (final_messages body) as [fm|]; [|discriminate].
  unfold orchestrate, groq_attempt, deepseek_attempt.
  destruct (env_truthy (GROQ_API_KEY E)).
  - destruct (provider_leg json_parse net (groq_call E fm)) as [t1 [e1|x1]] eqn:H1.
    + destruct (provider_leg json_parse net (deepseek_call E fm)) as [t2 [e2|x2]] eqn:H2;
      simpl; [discriminate|].
      intros [= <-]. exists x2, "DEEPSEEK". split; [reflexivity|]. split; [|auto].
      apply (provider_leg_success json_parse net (deepseek_call E fm)). now rewrite H2.
    + simpl. intros [= <-]. exists x1, "GROQ". split; [reflexivity|]. split; [|auto].
      apply (provider_leg_success json_parse net (groq_call E fm)). now rewrite H1.
  - destruct (provider_leg json_parse net (deepseek_call E fm)) as [t2 [e2|x2]] eqn:H2;
    simpl; [discriminate|].
    intros [= <-]. exists x2, "DEEPSEEK". split; [reflexivity|]. split; [|auto].
    apply (provider_leg_success json_parse net (deepseek_call E fm)). now rewrite H2.
Qed.

Lemma success_body_shape_witness :
  exists text engine,
    JObj [("text", JStr "Sәlem"); ("engine", JStr "GROQ")] =
      JObj [("text", text); ("engine", JStr engine)] /\
    truthy text = true /\ (engine = "GROQ" \/ engine = "DEEPSEEK").
Proof. exact (success_body_shape sample_parse net_ok "POST" req_raw env_groq _ eq_refl). Defined.

(** For a non-success response whose non-empty body is not JSON, the error
    message is the body cut to its first 300 UTF-16 code units: exactly
    [min 300 (raw.length)] code units long. *)
Theorem raw_body_message_bound (json_parse : string -> option jvalue) (status : Z)
    (raw : string) :
  json_parse raw = None -> res_ok status = false -> raw <> "" ->
  exists e, parse_open_ai_compat json_parse status (inr raw) = inl e /\
    emsg e = js_slice 300 raw /\
    js_length (emsg e) = Nat.min 300 (js_length raw).
Proof.
  intros Hp Hok Hne. unfold parse_open_ai_compat. rewrite Hp, Hok. simpl negb. cbv iota.
  unfold js_or. simpl prop.
  assert (Hs : truthy (JStr (js_slice 300 raw)) = true).
  { simpl. apply negb_true_iff, String.eqb_neq. exact (js_slice_nonempty 298 raw Hne). }
  simpl truthy in *. rewrite Hs. simpl.
  eexists. split; [reflexivity|]. split; [reflexivity|]. apply js_slice_length.
Qed.

Lemma raw_body_message_bound_witness :
  exists e, parse_open_ai_compat sample_parse 502 (inr "Bad gateway") = inl e /\
    emsg e = js_slice 300 "Bad gateway" /\
    js_length (emsg e) = Nat.min 300 (js_length "Bad gateway").
Proof.
  exact (raw_body_message_bound sample_parse 502 "Bad gateway" eq_refl eq_refl
           ltac:(discriminate)).
Defined.
